(** * BehaviorRouter: behavior matching, registry construction and the
      per-request handler of the offline edge-lambda simulator.

    The development embeds [src/behavior-router.ts].  The router keeps an
    insertion-ordered [Map<string, FunctionSet>] of behaviors, an origin map
    and a cache service; every request goes through the middleware that
    [listen] installs.

    The router calls into modules it imports: [./function-set], [./services]
    (CloudFrontLifecycle, Origin, CacheService), [./utils], [./errors/http],
    and into the platform (URL, path.join).  What the router needs of them is
    gathered in the [Externals] class, so the theorems of the second part hold
    for any implementation; where a definition has to say what such a module
    does, it follows the specification and says so.

    [http.ServerResponse] is the record of what the router assigns to it; the
    checks Node applies to status codes and header tokens when the head is
    written are outside the model, and so is the API of the server itself.
    Strings are byte strings: the case mappings and [parseInt] are those of the
    ASCII range. *)

From Stdlib Require Import ZArith Ascii String List DecimalString.
From stdpp Require Import base option list strings gmap.

Local Open Scope string_scope.
Local Open Scope Z_scope.

(** ** JavaScript primitives used by the router *)

Module Js.

(** [a || b] with a string or undefined on the left: the empty string and
    undefined are falsy. *)
Definition or_string (a : option string) (b : string) : string :=
  match a with
  | Some s => if String.eqb s "" then b else s
  | None => b
  end.

(** [!s] for a string or undefined. *)
Definition falsy_string (a : option string) : bool :=
  match a with
  | Some s => String.eqb s ""
  | None => true
  end.

(** [a || b] with a number or undefined on the left: 0 and undefined are falsy. *)
Definition or_number (a : option Z) (b : Z) : Z :=
  match a with
  | Some z => if Z.eqb z 0 then b else z
  | None => b
  end.

(** [String.prototype.toUpperCase] and [toLowerCase] on the ASCII range, which
    is where HTTP method tokens and header names live. *)
Definition upper_ascii (c : ascii) : ascii :=
  let n := nat_of_ascii c in
  if (Nat.leb 97 n && Nat.leb n 122)%bool then ascii_of_nat (n - 32) else c.

Definition lower_ascii (c : ascii) : ascii :=
  let n := nat_of_ascii c in
  if (Nat.leb 65 n && Nat.leb n 90)%bool then ascii_of_nat (n + 32) else c.

Fixpoint toUpperCase (s : string) : string :=
  match s with
  | EmptyString => EmptyString
  | String c s' => String (upper_ascii c) (toUpperCase s')
  end.

Fixpoint toLowerCase (s : string) : string :=
  match s with
  | EmptyString => EmptyString
  | String c s' => String (lower_ascii c) (toLowerCase s')
  end.

(** A JavaScript number as the router meets it: an integer or NaN. *)
Inductive Number :=
| Num (z : Z)
| NaN.

Definition is_ws (c : ascii) : bool :=
  let n := nat_of_ascii c in
  (Nat.eqb n 32 || (Nat.leb 9 n && Nat.leb n 13))%bool.

Definition digit_of (c : ascii) : option Z :=
  let n := nat_of_ascii c in
  if (Nat.leb 48 n && Nat.leb n 57)%bool then Some (Z.of_nat (n - 48)) else None.

Fixpoint skip_ws (s : string) : string :=
  match s with
  | String c s' => if is_ws c then skip_ws s' else s
  | EmptyString => s
  end.

Fixpoint digits (acc : option Z) (s : string) : option Z :=
  match s with
  | String c s' =>
      match digit_of c with
      | Some d => digits (Some (10 * default 0 acc + d)) s'
      | None => acc
      end
  | EmptyString => acc
  end.

(** [parseInt(s, 10)]: leading white space, an optional sign, then the longest
    run of decimal digits; NaN when there is no digit. *)
Definition parseInt10 (s : string) : Number :=
  let s := skip_ws s in
  let '(neg, s) :=
    match s with
    | String "-" s' => (true, s')
    | String "+" s' => (false, s')
    | _ => (false, s)
    end in
  match digits None s with
  | Some z => Num (if neg then - z else z)
  | None => NaN
  end.

(** The JSON values [JSON.stringify] is applied to here. *)
#[warnings="-register-all"]
Inductive JSON :=
| JNumber (z : Z)
| JString (s : string)
| JObject (members : list (string * JSON)).

Definition hex_digit (n : nat) : ascii :=
  if Nat.ltb n 10 then ascii_of_nat (48 + n) else ascii_of_nat (87 + n).

Definition dquote : ascii := ascii_of_nat 34.

(** QuoteJSONString on one code unit below 0x80; bytes above pass through. *)
Definition escape_char (c : ascii) : string :=
  let n := nat_of_ascii c in
  if Nat.eqb n 34 then String "\" (String dquote "")
  else if Nat.eqb n 92 then "\\"
  else if Nat.eqb n 8 then "\b"
  else if Nat.eqb n 12 then "\f"
  else if Nat.eqb n 10 then "\n"
  else if Nat.eqb n 13 then "\r"
  else if Nat.eqb n 9 then "\t"
  else if Nat.ltb n 32 then
    "\u00" ++ String (hex_digit (n / 16)) (String (hex_digit (n mod 16)) "")
  else String c "".

Fixpoint escape (s : string) : string :=
  match s with
  | EmptyString => EmptyString
  | String c s' => escape_char c ++ escape s'
  end.

Definition quote (s : string) : string :=
  String dquote (escape s ++ String dquote "").

Definition number_to_string (z : Z) : string :=
  NilZero.string_of_int (Z.to_int z).

Fixpoint stringify (v : JSON) : string :=
  match v with
  | JNumber z => number_to_string z
  | JString s => quote s
  | JObject ms =>
      let fix members (ms : list (string * JSON)) : string :=
        match ms with
        | [] => ""
        | [(k, x)] => quote k ++ ":" ++ stringify x
        | (k, x) :: rest => quote k ++ ":" ++ stringify x ++ "," ++ members rest
        end in
      "{" ++ members ms ++ "}"
  end.

End Js.

(** ** An insertion-ordered map with string keys

    [Map<string, V>]: iteration follows first insertion, and [set] on a key
    already present keeps its place.  The list holds the entries in iteration
    order. *)

Module JsMap.

Definition t (V : Type) : Type := list (string * V).

Definition clear {V} (m : t V) : t V := [].

Fixpoint get {V} (k : string) (m : t V) : option V :=
  match m with
  | [] => None
  | (k', v) :: m' => if String.eqb k' k then Some v else get k m'
  end.

Definition has {V} (k : string) (m : t V) : bool :=
  match get k m with
  | Some _ => true
  | None => false
  end.

Fixpoint set {V} (k : string) (v : V) (m : t V) : t V :=
  match m with
  | [] => [(k, v)]
  | (k', v') :: m' =>
      if String.eqb k' k then (k, v) :: m' else (k', v') :: set k v m'
  end.

Definition keys {V} (m : t V) : list string := map fst m.

(** The first entry, in iteration order, whose value satisfies [p]:
    [for (const [, v] of m) if (p(v)) return v]. *)
Fixpoint first_value {V} (p : V -> bool) (m : t V) : option V :=
  match m with
  | [] => None
  | (_, v) :: m' => if p v then Some v else first_value p m'
  end.

End JsMap.

(** ** The data the router handles *)

(** [new Origin(target)]. *)
Record Origin := { target : string }.

(** The four stages a handler can be registered for. *)
Inductive EventType :=
| viewer_request
| origin_request
| origin_response
| viewer_response.

(** A behavior: the pattern, its compiled matcher ([regex.test]), the origin
    and one slot per stage, each holding the path of the handler module. *)
Record FunctionSet := {
  pattern : string;
  regex : string -> bool;
  origin : option Origin;
  viewerRequest : option string;
  originRequest : option string;
  originResponse : option string;
  viewerResponse : option string;
}.

(** The slot of a stage. *)
Definition slot (fs : FunctionSet) (ev : EventType) : option string :=
  match ev with
  | viewer_request => viewerRequest fs
  | origin_request => originRequest fs
  | origin_response => originResponse fs
  | viewer_response => viewerResponse fs
  end.

(** Modelled from the spec: [FunctionSet.setHandler(eventType, path)], defined
    in [./function-set], which is not embedded here.  The handler goes into
    the slot of its stage; a later registration for a filled slot replaces
    it. *)
Definition setHandler (fs : FunctionSet) (ev : EventType) (h : string) : FunctionSet :=
  match ev with
  | viewer_request =>
      {| pattern := pattern fs; regex := regex fs; origin := origin fs;
         viewerRequest := Some h; originRequest := originRequest fs;
         originResponse := originResponse fs; viewerResponse := viewerResponse fs |}
  | origin_request =>
      {| pattern := pattern fs; regex := regex fs; origin := origin fs;
         viewerRequest := viewerRequest fs; originRequest := Some h;
         originResponse := originResponse fs; viewerResponse := viewerResponse fs |}
  | origin_response =>
      {| pattern := pattern fs; regex := regex fs; origin := origin fs;
         viewerRequest := viewerRequest fs; originRequest := originRequest fs;
         originResponse := Some h; viewerResponse := viewerResponse fs |}
  | viewer_response =>
      {| pattern := pattern fs; regex := regex fs; origin := origin fs;
         viewerRequest := viewerRequest fs; originRequest := originRequest fs;
         originResponse := originResponse fs; viewerResponse := Some h |}
  end.

(** [serverless.service.functions]: each entry has a handler and, when it is an
    edge function, a [lambdaAtEdge] block. *)
Record LambdaAtEdge := {
  pathPattern : option string;
  eventType : EventType;
}.

Record FunctionDef := {
  handler : string;
  lambdaAtEdge : option LambdaAtEdge;
}.

(** [custom.offlineEdgeLambda.originMap]. *)
Record OriginMapping := {
  om_pathPattern : string;
  om_target : string;
}.

(** The request as the middleware receives it. *)
Record IncomingMessage := {
  method : option string;
  url : option string;
  req_headers : list (string * string);
  req_cookies : list (string * string);
  req_body : string;
}.

(** A header value handed to [res.setHeader]. *)
Inductive HeaderValue :=
| HUndefined
| HNull
| HString (s : string)
| HArray (l : list string).

(** JavaScript truthiness: undefined, null and the empty string are falsy; an
    array is truthy whatever it holds. *)
Definition truthy (v : HeaderValue) : bool :=
  match v with
  | HUndefined | HNull => false
  | HString s => negb (String.eqb s "")
  | HArray _ => true
  end.

Record HttpHeader := {
  key : string;
  value : HeaderValue;
}.

(** CloudFront's header object: name to a list of key and value pairs. *)
Definition CloudFrontHeaders : Type := list (string * list (option string * string)).

(** The response a lifecycle run resolves to. *)
Record CloudFrontResponse := {
  status : string;
  statusDescription : option string;
  headers : CloudFrontHeaders;
  body : option string;
}.

(** The body of an error response. *)
Record Payload := {
  code : Z;
  message : string;
}.

Definition payload_json (p : Payload) : Js.JSON :=
  Js.JObject [("code", Js.JNumber (code p)); ("message", Js.JString (message p))].

(** A thrown error as [handleError] reads it: the status code it carries, if
    any, its message and stack, and the result of [getResponsePayload] when
    that is an own property of the error object.
    Modelled from the spec: [getResponsePayload], defined in [./errors/http],
    which is not embedded here, returns the code and message pair of the
    error body. *)
Record HttpError := {
  statusCode : option Z;
  err_message : string;
  err_stack : option string;
  own_getResponsePayload : option Payload;
}.

(** The outcome of a call that may throw. *)
Inductive Completion (A : Type) :=
| Normal (a : A)
| Throw (e : HttpError).
Arguments Normal {A} a.
Arguments Throw {A} e.

(** [http.ServerResponse], as far as the router writes to it.  Headers are
    kept under their lower-cased name with the name as given, in the order of
    first use. *)
Record ServerResponse := {
  res_statusCode : Js.Number;
  res_statusMessage : string;
  res_headers : JsMap.t (string * HeaderValue);
  res_body : string;
  res_finished : bool;
}.

Definition set_statusCode (n : Js.Number) (res : ServerResponse) : ServerResponse :=
  {| res_statusCode := n; res_statusMessage := res_statusMessage res;
     res_headers := res_headers res; res_body := res_body res;
     res_finished := res_finished res |}.

Definition set_statusMessage (m : string) (res : ServerResponse) : ServerResponse :=
  {| res_statusCode := res_statusCode res; res_statusMessage := m;
     res_headers := res_headers res; res_body := res_body res;
     res_finished := res_finished res |}.

Definition setHeader (name : string) (v : HeaderValue) (res : ServerResponse) : ServerResponse :=
  {| res_statusCode := res_statusCode res; res_statusMessage := res_statusMessage res;
     res_headers := JsMap.set (Js.toLowerCase name) (name, v) (res_headers res);
     res_body := res_body res; res_finished := res_finished res |}.

(** [res.end(data)]; [res.end()] is [end_ None]. *)
Definition end_ (data : option string) (res : ServerResponse) : ServerResponse :=
  {| res_statusCode := res_statusCode res; res_statusMessage := res_statusMessage res;
     res_headers := res_headers res;
     res_body := match data with
                 | Some d => res_body res ++ d
                 | None => res_body res
                 end;
     res_finished := true |}.

(** Modelled from the spec: the cache service, defined in [./services], which
    is not embedded here, is a store of responses keyed by request
    fingerprint, and [purge] removes every entry. *)
Definition CacheService : Type := gmap string CloudFrontResponse.

Definition purge (c : CacheService) : CacheService := ∅.

(** The calls into the collaborators that a request makes, in order. *)
Inductive Call :=
| CallPurge
| CallMatch
| CallConvertToCloudFrontEvent
| CallNewLifecycle (behavior : string)
| CallLifecycleRun (u : string)
| CallSetHeader (name : string) (v : HeaderValue).

(** [http-status-codes]. *)
Module StatusCodes.
Definition OK : Z := 200.
Definition NOT_FOUND : Z := 404.
Definition INTERNAL_SERVER_ERROR : Z := 500.
End StatusCodes.

(** ** The collaborators of the router

    What the router calls but does not define: the platform ([URL],
    [path.join]) and the imported modules of the repository.  Each is a field,
    so nothing below depends on how it is implemented. *)

Class Externals := {
  (** [new URL(u, 'http://localhost').pathname], or the error the
      constructor throws. *)
  url_pathname : string -> Completion string;
  (** The matcher that the FunctionSet constructor compiles from its
      pattern: [regex.test]. *)
  compile_pattern : string -> string -> bool;
  (** [path.join]. *)
  path_join : string -> string -> string;
  (** [convertToCloudFrontEvent(req, this.builder('viewer-request'))]. *)
  CloudFrontEvent : Type;
  convertToCloudFrontEvent : IncomingMessage -> CloudFrontEvent;
  (** [new CloudFrontLifecycle(..., cfEvent, ..., cacheService, handler).run(url)]:
      what the run resolves to or rejects with, and the cache it leaves. *)
  lifecycle_run :
    CloudFrontEvent -> FunctionSet -> string -> CacheService ->
    Completion (option CloudFrontResponse) * CacheService;
  (** [new CloudFrontHeadersHelper(headers).asHttpHeaders()]. *)
  asHttpHeaders : CloudFrontHeaders -> list HttpHeader;
  (** [new InternalServerError(message)]. *)
  InternalServerError : string -> HttpError;
}.

(** Modelled from the spec: the FunctionSet constructor, defined in
    [./function-set], which is not embedded here, gives the behavior of a
    pattern with its matcher compiled, the origin it is handed and no stage
    filled. *)
Definition new_FunctionSet `{Externals} (p : string) (o : option Origin) : FunctionSet :=
  {| pattern := p; regex := compile_pattern p; origin := o;
     viewerRequest := None; originRequest := None;
     originResponse := None; viewerResponse := None |}.

(** ** The router *)

Record BehaviorRouter := {
  functions : list (string * FunctionDef);
  behaviors : JsMap.t FunctionSet;
  origins : gmap string Origin;
  cacheService : CacheService;
  path : string;
}.

Definition with_behaviors (b : JsMap.t FunctionSet) (r : BehaviorRouter) : BehaviorRouter :=
  {| functions := functions r; behaviors := b; origins := origins r;
     cacheService := cacheService r; path := path r |}.

(** [configureOrigins]: the origin map, a later mapping of a pattern
    replacing an earlier one. *)
Definition configureOrigins (mappings : list OriginMapping) : gmap string Origin :=
  foldl (fun acc item => <[om_pathPattern item := {| target := om_target item |}]> acc)
        ∅ mappings.

(** [match]: null without a URL; otherwise the first behavior, in iteration
    order of the map, whose matcher accepts the pathname, and the entry under
    the star when none does. *)
Definition match_ `{Externals} (r : BehaviorRouter) (req : IncomingMessage)
  : Completion (option FunctionSet) :=
  match url req with
  | None => Normal None
  | Some u =>
      if String.eqb u "" then Normal None
      else
        match url_pathname u with
        | Throw e => Throw e
        | Normal pathname =>
            match JsMap.first_value (fun h => regex h pathname) (behaviors r) with
            | Some h => Normal (Some h)
            | None => Normal (JsMap.get "*" (behaviors r))
            end
        end
  end.

(** [Object.entries(functions).filter(([, fn]) => 'lambdaAtEdge' in fn)]. *)
Definition lambdaDefs (fns : list (string * FunctionDef)) : list (string * FunctionDef) :=
  List.filter (fun e => bool_decide (is_Some (lambdaAtEdge (snd e)))) fns.

(** [def.lambdaAtEdge.pathPattern || '*']. *)
Definition pattern_of (lae : LambdaAtEdge) : string :=
  Js.or_string (pathPattern lae) "*".

(** One turn of the loop of [extractBehaviors]. *)
Definition register `{Externals} (r : BehaviorRouter)
    (bs : JsMap.t FunctionSet) (e : string * FunctionDef) : JsMap.t FunctionSet :=
  match lambdaAtEdge (snd e) with
  | None => bs
  | Some lae =>
      let p := pattern_of lae in
      let bs :=
        if JsMap.has p bs then bs
        else JsMap.set p (new_FunctionSet p (origins r !! p)) bs in
      match JsMap.get p bs with
      | Some fnSet =>
          JsMap.set p (setHandler fnSet (eventType lae) (path_join (path r) (handler (snd e)))) bs
      | None => bs
      end
  end.

(** [extractBehaviors]: empty the map, register every edge function in the
    order of the entries, then add the star behavior when it is missing. *)
Definition extractBehaviors `{Externals} (r : BehaviorRouter) : BehaviorRouter :=
  let bs := JsMap.clear (behaviors r) in
  let bs := foldl (register r) bs (lambdaDefs (functions r)) in
  let bs :=
    if JsMap.has "*" bs then bs
    else JsMap.set "*" (new_FunctionSet "*" (origins r !! "*")) bs in
  with_behaviors bs r.

(** ** The request handler

    The middleware writes to the response, reads and purges the cache and may
    throw; [M] threads the three. *)

Record World := {
  w_res : ServerResponse;
  w_cache : CacheService;
  w_calls : list Call;
}.

Definition M (A : Type) : Type := World -> Completion A * World.

#[global] Instance M_ret : MRet M := fun A a w => (Normal a, w).

#[global] Instance M_bind : MBind M := fun A B f m w =>
  match m w with
  | (Normal a, w') => f a w'
  | (Throw e, w') => (Throw e, w')
  end.

Definition throw {A} (e : HttpError) : M A := fun w => (Throw e, w).

Definition try_catch {A} (m : M A) (h : HttpError -> M A) : M A :=
  fun w =>
    match m w with
    | (Throw e, w') => h e w'
    | (Normal a, w') => (Normal a, w')
    end.

Definition call (c : Call) : M unit :=
  fun w => (Normal tt, {| w_res := w_res w; w_cache := w_cache w; w_calls := w_calls w ++ [c] |}).

Definition on_res (f : ServerResponse -> ServerResponse) : M unit :=
  fun w => (Normal tt, {| w_res := f (w_res w); w_cache := w_cache w; w_calls := w_calls w |}).

Definition completion {A} (c : Completion A) : M A := fun w => (c, w).

(** [this.cacheService.purge()]. *)
Definition purgeStorage : M unit :=
  fun w => (Normal tt, {| w_res := w_res w; w_cache := purge (w_cache w);
                          w_calls := w_calls w ++ [CallPurge] |}).

(** [await lifecycle.run(url)]. *)
Definition run `{Externals} (cfEvent : CloudFrontEvent) (h : FunctionSet) (u : string)
  : M (option CloudFrontResponse) :=
  fun w =>
    let '(c, cache) := lifecycle_run cfEvent h u (w_cache w) in
    (c, {| w_res := w_res w; w_cache := cache; w_calls := w_calls w ++ [CallLifecycleRun u] |}).

(** [handleError]. *)
Definition handleError (err : HttpError) : M unit :=
  on_res (set_statusCode
            (Js.Num (Js.or_number (statusCode err) StatusCodes.INTERNAL_SERVER_ERROR)));;
  let payload :=
    Js.stringify
      (payload_json
         match own_getResponsePayload err with
         | Some p => p
         | None =>
             {| code := StatusCodes.INTERNAL_SERVER_ERROR;
                message := Js.or_string (err_stack err) (err_message err) |}
         end) in
  on_res (end_ (Some payload)).

(** [for (const { key, value } of ...) if (value) res.setHeader(key, value)]. *)
Fixpoint write_headers (hs : list HttpHeader) : M unit :=
  match hs with
  | [] => mret tt
  | h :: hs' =>
      (if truthy (value h)
       then call (CallSetHeader (key h) (value h));; on_res (setHeader (key h) (value h))
       else mret tt);;
      write_headers hs'
  end.

(** The middleware that [listen] installs. *)
Definition listen_middleware `{Externals} (r : BehaviorRouter) (req : IncomingMessage) : M unit :=
  if String.eqb (Js.toUpperCase (Js.or_string (method req) "")) "PURGE" then
    purgeStorage;;
    on_res (set_statusCode (Js.Num StatusCodes.OK));;
    on_res (end_ None)
  else
    call CallMatch;;
    h ← completion (match_ r req);
    call CallConvertToCloudFrontEvent;;
    let cfEvent := convertToCloudFrontEvent req in
    match h with
    | None =>
        on_res (set_statusCode (Js.Num StatusCodes.NOT_FOUND));;
        on_res (end_ None)
    | Some h =>
        try_catch
          (call (CallNewLifecycle (pattern h));;
           response ← run cfEvent h (default "" (url req));
           match response with
           | None => throw (InternalServerError "No response set after full request lifecycle")
           | Some response =>
               on_res (set_statusCode (Js.parseInt10 (status response)));;
               on_res (set_statusMessage (Js.or_string (statusDescription response) ""));;
               write_headers (asHttpHeaders (headers response));;
               on_res (end_ (body response))
           end)
          handleError
    end.

(** The requests that the middleware does not take for a purge. *)
Definition not_purge (req : IncomingMessage) : Prop :=
  Js.toUpperCase (Js.or_string (method req) "") <> "PURGE".

(** The calls a request makes up to and including the run of its lifecycle. *)
Definition lifecycle_calls (h : FunctionSet) (req : IncomingMessage) : list Call :=
  [CallMatch; CallConvertToCloudFrontEvent; CallNewLifecycle (pattern h);
   CallLifecycleRun (default "" (url req))].

(** The headers among [hs] that the loop hands to [setHeader]. *)
Definition sent_headers (hs : list HttpHeader) : list HttpHeader :=
  List.filter (fun h => truthy (value h)) hs.

(** A response nothing has been written to. *)
Definition fresh_response : ServerResponse :=
  {| res_statusCode := Js.Num 200; res_statusMessage := ""; res_headers := [];
     res_body := ""; res_finished := false |}.

Definition start (r : BehaviorRouter) : World :=
  {| w_res := fresh_response; w_cache := cacheService r; w_calls := [] |}.

(** ** The registry as the specification words it

    Used only to compare with what the code computes. *)

(** The behaviors registered under a pattern other than the star. *)
Definition non_wildcard (bs : JsMap.t FunctionSet) : JsMap.t FunctionSet :=
  List.filter (fun e => negb (String.eqb (fst e) "*")) bs.

(** Resolution as specified: the first non-wildcard behavior, in
    registration order, whose matcher accepts the path; the star behavior
    when none does. *)
Definition resolve_spec (bs : JsMap.t FunctionSet) (pathname : string) : option FunctionSet :=
  match JsMap.first_value (fun h => regex h pathname) (non_wildcard bs) with
  | Some h => Some h
  | None => JsMap.get "*" bs
  end.

(** The registration an entry of the function list stands for: pattern,
    stage and handler path of an edge function. *)
Definition registration `{Externals} (r : BehaviorRouter) (e : string * FunctionDef)
  : list (string * EventType * string) :=
  match lambdaAtEdge (snd e) with
  | Some lae => [(pattern_of lae, eventType lae, path_join (path r) (handler (snd e)))]
  | None => []
  end.

(** The registrations of the function list, in the order of the entries. *)
Definition registrations `{Externals} (r : BehaviorRouter)
  : list (string * EventType * string) :=
  flat_map (registration r) (functions r).

Definition EventType_eqb (a b : EventType) : bool :=
  match a, b with
  | viewer_request, viewer_request
  | origin_request, origin_request
  | origin_response, origin_response
  | viewer_response, viewer_response => true
  | _, _ => false
  end.

(** The handler of the last registration for a pattern and a stage. *)
Fixpoint last_registered (p : string) (ev : EventType)
    (regs : list (string * EventType * string)) : option string :=
  match regs with
  | [] => None
  | (p', ev', h) :: regs' =>
      match last_registered p ev regs' with
      | Some h' => Some h'
      | None => if (String.eqb p' p && EventType_eqb ev' ev)%bool then Some h else None
      end
  end.

Definition patterns_of (regs : list (string * EventType * string)) : list string :=
  map (fun x => fst (fst x)) regs.

(** The patterns that have a registration. *)
Definition registered_patterns `{Externals} (r : BehaviorRouter) : list string :=
  patterns_of (registrations r).

(** The behavior of a pattern as specified: the matcher and the origin of the
    pattern and, in each slot, the handler of the last registration for that
    pattern and stage. *)
Definition grouped `{Externals} (r : BehaviorRouter)
    (regs : list (string * EventType * string)) (p : string) : FunctionSet :=
  {| pattern := p; regex := compile_pattern p; origin := origins r !! p;
     viewerRequest := last_registered p viewer_request regs;
     originRequest := last_registered p origin_request regs;
     originResponse := last_registered p origin_response regs;
     viewerResponse := last_registered p viewer_response regs |}.

(** A registry that groups the registrations [regs]: no pattern twice, the
    patterns in [also] and those of the registrations, each with its grouped
    behavior. *)
Definition groups `{Externals} (r : BehaviorRouter) (also : list string)
    (regs : list (string * EventType * string)) (bs : JsMap.t FunctionSet) : Prop :=
  NoDup (JsMap.keys bs) /\
  (forall p, p ∈ JsMap.keys bs <-> p ∈ also \/ p ∈ patterns_of regs) /\
  (forall p fs, JsMap.get p bs = Some fs -> fs = grouped r regs p).

(** A body is structured JSON when it is the text of a JSON object. *)
Definition is_json_object (s : string) : Prop :=
  exists members, s = Js.stringify (Js.JObject members).

(** ** Construction and start-up *)

(** What the constructor reads of the platform: the temporary directory,
    [path.resolve], and what the cache directory holds when the cache
    service is opened on it. *)
Class Platform := {
  os_tmpdir : string;
  path_resolve : string -> string;
  stored_cache : string -> CacheService;
}.

(** The options and the service description handed to the constructor, as
    far as it reads them. *)
Record ServerlessOptions := {
  opt_cacheDir : option string;
  opt_fileDir : option string;
}.

Record ServerlessInstance := {
  service_functions : list (string * FunctionDef);
  offlineEdgeLambda_path : option string;
  offlineEdgeLambda_originMap : option (list OriginMapping);
}.

(** The two directories the constructor resolves and creates. *)
Record Directories := {
  cacheDir : string;
  fileDir : string;
}.

(** [path.resolve(options.cacheDir || path.join(os.tmpdir(), 'edge-lambda'))],
    and the same for the file directory. *)
Definition directories `{Externals} `{Platform} (options : ServerlessOptions) : Directories :=
  {| cacheDir := path_resolve (Js.or_string (opt_cacheDir options)
                                 (path_join os_tmpdir "edge-lambda"));
     fileDir := path_resolve (Js.or_string (opt_fileDir options)
                                (path_join os_tmpdir "edge-lambda")) |}.

(** The constructor: the router with an empty registry, the origins of the
    origin map and the cache opened on the cache directory; next to it the
    directories and the calls to [mkdirpSync], in order. *)
Definition constructor `{Externals} `{Platform}
    (serverless : ServerlessInstance) (options : ServerlessOptions)
  : BehaviorRouter * Directories * list string :=
  let d := directories options in
  ({| functions := service_functions serverless;
      behaviors := [];
      origins := configureOrigins (default [] (offlineEdgeLambda_originMap serverless));
      cacheService := stored_cache (cacheDir d);
      path := Js.or_string (offlineEdgeLambda_path serverless) "" |},
   d, [cacheDir d; fileDir d]).

(** What start-up prints: a line through the logger of the framework, or an
    empty line on the console. *)
Inductive Output :=
| CliLog (msg : string)
| ConsoleLog.

(** [logStorage]. *)
Definition logStorage (d : Directories) : list Output :=
  [CliLog ("Cache directory: file://" ++ cacheDir d);
   CliLog ("Files directory: file://" ++ fileDir d);
   ConsoleLog].

(** [behavior.stage && this.log(`label => ${behavior.stage.path || ''}`)]. *)
Definition stage_line (label : string) (handler_path : option string) : list Output :=
  match handler_path with
  | Some h => [CliLog (label ++ " => " ++ Js.or_string (Some h) "")]
  | None => []
  end.

Definition header_line (k : string) : Output :=
  CliLog ("Lambdas for path pattern " ++ k ++ ": ").

(** [logBehaviors]: for each entry of the map, in iteration order, the line of
    its pattern, one line for each stage that has a handler, and an empty
    line. *)
Definition logBehaviors (bs : JsMap.t FunctionSet) : list Output :=
  flat_map
    (fun e =>
       header_line (fst e) ::
       stage_line "viewer-request" (viewerRequest (snd e)) ++
       stage_line "origin-request" (originRequest (snd e)) ++
       stage_line "origin-response" (originResponse (snd e)) ++
       stage_line "viewer-response" (viewerResponse (snd e)) ++
       [ConsoleLog])%list
    bs.

(** The start of [listen], up to the point where the server is created: the
    registry is built, then the storage and the behaviors are logged. *)
Definition listen_startup `{Externals} (r : BehaviorRouter) (d : Directories)
  : BehaviorRouter * list Output :=
  let r' := extractBehaviors r in
  (r', (logStorage d ++ logBehaviors (behaviors r'))%list).

(** The lines of a log that announce a pattern. *)
Definition is_header (o : Output) : bool :=
  match o with
  | CliLog msg => String.prefix "Lambdas for path pattern " msg
  | ConsoleLog => false
  end.

(** A pattern joins the patterns seen so far at the end, unless it is one
    of them. *)
Definition see (acc : list string) (p : string) : list string :=
  if bool_decide (p ∈ acc) then acc else (acc ++ [p])%list.

(** The patterns of a list in the order in which each is met first. *)
Definition first_seen (ps : list string) : list string := foldl see [] ps.

(** ** A reference implementation of the collaborators

    It instantiates the theorems at concrete requests. *)

Module Reference.

(** Modelled from the spec: the matcher of a pattern, compiled in
    [./function-set], which is not embedded here.  A star matches any run of
    characters and the pattern is anchored at both ends. *)
Fixpoint glob (p s : string) : bool :=
  match p with
  | EmptyString => String.eqb s ""
  | String c p' =>
      if Ascii.eqb c "*" then
        (fix star (s : string) : bool :=
           (glob p' s ||
              match s with
              | EmptyString => false
              | String _ s' => star s'
              end)%bool) s
      else
        match s with
        | EmptyString => false
        | String d s' => (Ascii.eqb c d && glob p' s')%bool
        end
  end.

(** The target up to its query or fragment. *)
Fixpoint path_part (u : string) : string :=
  match u with
  | EmptyString => EmptyString
  | String c u' =>
      if (Ascii.eqb c "?" || Ascii.eqb c "#")%bool then EmptyString
      else String c (path_part u')
  end.

Definition invalid_url : HttpError :=
  {| statusCode := None; err_message := "Invalid URL"; err_stack := None;
     own_getResponsePayload := None |}.

(** A stand-in for the URL parser on request targets in origin form,
    resolved against [http://localhost]: the path before the query or
    fragment, and the root for an empty path.  It removes no dot segment and
    escapes no character, and it answers a target that starts with two
    slashes, or a slash and a backslash, as the parser answers one whose host
    is empty. *)
Definition pathname (u : string) : Completion string :=
  match path_part u with
  | EmptyString => Normal "/"
  | String "/" EmptyString => Normal "/"
  | String "/" (String c rest) =>
      if (Ascii.eqb c "/" || Ascii.eqb c "\")%bool then Throw invalid_url
      else Normal (String "/" (String c rest))
  | other => Normal (String "/" other)
  end.

Definition join (a b : string) : string :=
  if String.eqb a "" then b else a ++ "/" ++ b.

(** One header per value, under the key the value carries or else the name
    of its entry. *)
Definition http_headers (hs : CloudFrontHeaders) : list HttpHeader :=
  flat_map
    (fun e => map (fun kv => {| key := default (fst e) (fst kv); value := HString (snd kv) |})
                  (snd e))
    hs.

(** Modelled from the spec: a contract failure of the lifecycle is a 500. *)
Definition internal_server_error (msg : string) : HttpError :=
  {| statusCode := Some StatusCodes.INTERNAL_SERVER_ERROR; err_message := msg;
     err_stack := None; own_getResponsePayload := None |}.

(** The collaborators around a given lifecycle. *)
Definition externals
    (lifecycle : IncomingMessage -> FunctionSet -> string -> CacheService ->
                 Completion (option CloudFrontResponse) * CacheService)
  : Externals :=
  {| url_pathname := pathname;
     compile_pattern := glob;
     path_join := join;
     CloudFrontEvent := IncomingMessage;
     convertToCloudFrontEvent := fun req => req;
     lifecycle_run := lifecycle;
     asHttpHeaders := http_headers;
     InternalServerError := internal_server_error |}.

(** A lifecycle that resolves without a response. *)
Definition silent : IncomingMessage -> FunctionSet -> string -> CacheService ->
                    Completion (option CloudFrontResponse) * CacheService :=
  fun _ _ _ cache => (Normal None, cache).

(** A lifecycle that rejects with an error that carries 502. *)
Definition bad_gateway : HttpError :=
  {| statusCode := Some 502; err_message := "origin unavailable";
     err_stack := None; own_getResponsePayload := None |}.

Definition failing : IncomingMessage -> FunctionSet -> string -> CacheService ->
                     Completion (option CloudFrontResponse) * CacheService :=
  fun _ _ _ cache => (Throw bad_gateway, cache).

(** A lifecycle that resolves to a fixed response, one of whose headers has
    an empty value. *)
Definition hello : CloudFrontResponse :=
  {| status := "200"; statusDescription := Some "OK";
     headers := [("content-type", [(Some "Content-Type", "text/plain")]);
                 ("x-empty", [(Some "X-Empty", "")])];
     body := Some "hello" |}.

Definition fixed : IncomingMessage -> FunctionSet -> string -> CacheService ->
                   Completion (option CloudFrontResponse) * CacheService :=
  fun _ _ _ cache => (Normal (Some hello), cache).

Definition get (target : string) : IncomingMessage :=
  {| method := Some "GET"; url := Some target; req_headers := [];
     req_cookies := []; req_body := "" |}.

Definition no_url : IncomingMessage :=
  {| method := Some "GET"; url := None; req_headers := [];
     req_cookies := []; req_body := "" |}.

Definition purge_request : IncomingMessage :=
  {| method := Some "PURGE"; url := Some "/"; req_headers := [];
     req_cookies := []; req_body := "" |}.

Definition edge (p : option string) (ev : EventType) (h : string) : FunctionDef :=
  {| handler := h; lambdaAtEdge := Some {| pathPattern := p; eventType := ev |} |}.

(** A service whose default edge function is declared before the one for the
    API, next to a function that is not an edge function. *)
Definition service : list (string * FunctionDef) :=
  [ ("default", edge None viewer_request "src/default.handler");
    ("plain", {| handler := "src/plain.handler"; lambdaAtEdge := None |});
    ("api", edge (Some "/api/*") viewer_request "src/api.handler");
    ("apiOrigin", edge (Some "/api/*") origin_request "src/origin.handler") ].

(** A service with no edge function for the star. *)
Definition api_only : list (string * FunctionDef) :=
  [ ("api", edge (Some "/api/*") viewer_request "src/api.handler");
    ("static", edge (Some "/static/*") origin_response "src/static.handler") ].

Definition router (fns : list (string * FunctionDef)) : BehaviorRouter :=
  {| functions := fns; behaviors := [];
     origins := configureOrigins [{| om_pathPattern := "/api/*"; om_target := "http://localhost:8080" |}];
     cacheService := ∅; path := "" |}.

(** The router of that service once its registry is built, around each of
    the two lifecycles. *)
Definition quiet : Externals := externals silent.
Definition answering : Externals := externals fixed.

Definition built (E : Externals) : BehaviorRouter :=
  extractBehaviors (H := E) (router service).

(** The behavior that the default edge function gives the star. *)
Definition star_behavior (E : Externals) : FunctionSet :=
  setHandler (new_FunctionSet (H := E) "*" None) viewer_request "src/default.handler".

(** A platform with a temporary directory, paths taken as they are and an
    empty cache directory. *)
Definition platform : Platform :=
  {| os_tmpdir := "/tmp"; path_resolve := fun p => p; stored_cache := fun _ => ∅ |}.

(** The description of the reference service, with two mappings for the
    pattern of the API. *)
Definition serverless : ServerlessInstance :=
  {| service_functions := service;
     offlineEdgeLambda_path := None;
     offlineEdgeLambda_originMap :=
       Some [ {| om_pathPattern := "/api/*"; om_target := "http://localhost:8080" |};
              {| om_pathPattern := "/img/*"; om_target := "http://localhost:9000" |};
              {| om_pathPattern := "/api/*"; om_target := "http://localhost:8081" |} ] |}.

Definition no_options : ServerlessOptions :=
  {| opt_cacheDir := None; opt_fileDir := None |}.

(** The behavior that the two edge functions of the API give their pattern,
    with the origin it is handed. *)
Definition api_behavior (E : Externals) (o : option Origin) : FunctionSet :=
  setHandler
    (setHandler (new_FunctionSet (H := E) "/api/*" o) viewer_request "src/api.handler")
    origin_request "src/origin.handler".

(** A service without any edge function. *)
Definition plain_only : list (string * FunctionDef) :=
  [ ("plain", {| handler := "src/plain.handler"; lambdaAtEdge := None |}) ].

End Reference.

(** * Properties *)

(** ** The insertion-ordered map *)

Section JsMapFacts.
Context {V : Type}.
Implicit Types (m : JsMap.t V) (k : string) (v : V).

Lemma get_set_eq k v m : JsMap.get k (JsMap.set k v m) = Some v.
Proof.
  induction m as [|[k' v'] m IH]; simpl.
  - by rewrite String.eqb_refl.
  - destruct (String.eqb k' k) eqn:E; simpl.
    + by rewrite String.eqb_refl.
    + by rewrite E.
Qed.

Lemma get_set_ne k k' v m : k <> k' -> JsMap.get k' (JsMap.set k v m) = JsMap.get k' m.
Proof.
  intros Hne. induction m as [|[k0 v0] m IH]; simpl.
  - destruct (String.eqb k k') eqn:E; [by apply String.eqb_eq in E|done].
  - destruct (String.eqb k0 k) eqn:E; simpl.
    + apply String.eqb_eq in E as ->.
      destruct (String.eqb k k') eqn:E'; [by apply String.eqb_eq in E'|done].
    + by rewrite IH.
Qed.

Lemma has_keys k m : JsMap.has k m = true <-> k ∈ JsMap.keys m.
Proof.
  unfold JsMap.has, JsMap.keys. induction m as [|[k' v'] m IH]; simpl.
  - split; [done|]. by intros ?%elem_of_nil.
  - rewrite elem_of_cons. destruct (String.eqb k' k) eqn:E.
    + apply String.eqb_eq in E. split; auto.
    + apply String.eqb_neq in E. rewrite IH. split; [auto|].
      intros [->|?]; [done|auto].
Qed.

Lemma get_None_keys k m : JsMap.get k m = None <-> k ∉ JsMap.keys m.
Proof.
  rewrite <- has_keys. unfold JsMap.has.
  destruct (JsMap.get k m); split; done.
Qed.

Lemma keys_set k v m :
  JsMap.keys (JsMap.set k v m) =
  if JsMap.has k m then JsMap.keys m else (JsMap.keys m ++ [k])%list.
Proof.
  unfold JsMap.has, JsMap.keys. induction m as [|[k' v'] m IH]; simpl; [done|].
  destruct (String.eqb k' k) eqn:E; simpl.
  - apply String.eqb_eq in E. by subst.
  - rewrite IH. by destruct (JsMap.get k m).
Qed.

Lemma elem_of_keys_set k k' v m :
  k' ∈ JsMap.keys (JsMap.set k v m) <-> k' = k \/ k' ∈ JsMap.keys m.
Proof.
  rewrite keys_set. destruct (JsMap.has k m) eqn:E.
  - apply has_keys in E. split; [auto|]. intros [->|?]; done.
  - rewrite elem_of_app, list_elem_of_singleton. tauto.
Qed.

Lemma NoDup_keys_set k v m : NoDup (JsMap.keys m) -> NoDup (JsMap.keys (JsMap.set k v m)).
Proof.
  intros Hnd. rewrite keys_set. destruct (JsMap.has k m) eqn:E; [done|].
  apply NoDup_app. split; [done|]. split; [|apply NoDup_singleton].
  intros x Hx ->%list_elem_of_singleton.
  apply has_keys in Hx. congruence.
Qed.

Lemma elem_of_get k v m : NoDup (JsMap.keys m) -> (k, v) ∈ m -> JsMap.get k m = Some v.
Proof.
  unfold JsMap.keys. induction m as [|[k' v'] m IH]; simpl; intros Hnd Hin.
  - by apply elem_of_nil in Hin.
  - apply NoDup_cons in Hnd as [Hk Hnd]. apply elem_of_cons in Hin as [Heq|Hin].
    + injection Heq as <- <-. by rewrite String.eqb_refl.
    + destruct (String.eqb k' k) eqn:E; [|auto].
      apply String.eqb_eq in E as ->. destruct Hk.
      apply list_elem_of_fmap. by exists (k, v).
Qed.

Lemma get_elem_of k v m : JsMap.get k m = Some v -> (k, v) ∈ m.
Proof.
  induction m as [|[k' v'] m IH]; simpl; [done|].
  destruct (String.eqb k' k) eqn:E.
  - apply String.eqb_eq in E as ->. intros [= ->]. apply elem_of_cons; auto.
  - intros ?. apply elem_of_cons; auto.
Qed.

(** What the loop over the entries returns: an entry that satisfies the
    test, every entry before it failing it. *)
Lemma first_value_Some (p : V -> bool) m v :
  JsMap.first_value p m = Some v ->
  exists m1 k m2, m = (m1 ++ (k, v) :: m2)%list /\ p v = true /\
                  Forall (fun e => p (snd e) = false) m1.
Proof.
  induction m as [|[k' v'] m IH]; simpl; [done|].
  destruct (p v') eqn:E.
  - intros [= ->]. by exists [], k', m.
  - intros (m1 & k & m2 & -> & Hp & Hall)%IH.
    exists ((k', v') :: m1), k, m2. repeat split; [done|]. by constructor.
Qed.

Lemma first_value_None (p : V -> bool) m :
  JsMap.first_value p m = None <-> Forall (fun e => p (snd e) = false) m.
Proof.
  induction m as [|[k' v'] m IH]; simpl.
  - split; [constructor|done].
  - rewrite Forall_cons. simpl. destruct (p v'); [|rewrite IH; tauto].
    split; [done|]. by intros [? _].
Qed.

Lemma set_fresh k v m : JsMap.has k m = false -> JsMap.set k v m = (m ++ [(k, v)])%list.
Proof.
  unfold JsMap.has. induction m as [|[k' v'] m IH]; simpl; [done|].
  destruct (String.eqb k' k); [done|]. intros Hm. by rewrite IH.
Qed.

Lemma get_app_fresh k v m : JsMap.has k m = false -> JsMap.get k (m ++ [(k, v)])%list = Some v.
Proof.
  unfold JsMap.has. induction m as [|[k' v'] m IH]; simpl.
  - by rewrite String.eqb_refl.
  - destruct (String.eqb k' k); [done|]. apply IH.
Qed.

Lemma first_value_snoc (p : V -> bool) m k v :
  JsMap.first_value p (m ++ [(k, v)])%list =
  match JsMap.first_value p m with
  | Some x => Some x
  | None => if p v then Some v else None
  end.
Proof.
  induction m as [|[k' v'] m IH]; simpl; [done|]. by destruct (p v').
Qed.

End JsMapFacts.

(** ** Building the registry *)

Section Registry.
Context `{Externals}.
Implicit Types (r : BehaviorRouter) (bs : JsMap.t FunctionSet) (p : string).

Lemma EventType_eqb_eq (a b : EventType) : EventType_eqb a b = true <-> a = b.
Proof. destruct a, b; simpl; split; congruence. Qed.

Lemma last_registered_nil_iff p regs :
  (forall ev, last_registered p ev regs = None) <-> p ∉ patterns_of regs.
Proof.
  unfold patterns_of. induction regs as [|[[p' ev'] h] regs IH]; simpl.
  - split; [intros _ ?%elem_of_nil; done|done].
  - rewrite not_elem_of_cons, <- IH. split.
    + intros Hall. split.
      * intros ->. specialize (Hall ev'). destruct (last_registered p' ev' regs); [done|].
        rewrite String.eqb_refl in Hall. simpl in Hall.
        by replace (EventType_eqb ev' ev') with true in Hall by (by destruct ev').
      * intros ev. specialize (Hall ev). by destruct (last_registered p ev regs).
    + intros [Hne Hall] ev. rewrite Hall.
      apply String.eqb_neq in Hne. rewrite String.eqb_sym in Hne. by rewrite Hne.
Qed.

Lemma last_registered_snoc p ev regs p' ev' h :
  last_registered p ev (regs ++ [(p', ev', h)]) =
  if (String.eqb p' p && EventType_eqb ev' ev)%bool then Some h
  else last_registered p ev regs.
Proof.
  induction regs as [|[[p0 ev0] h0] regs IH]; simpl; [done|].
  rewrite IH. destruct (String.eqb p' p && EventType_eqb ev' ev)%bool; [done|].
  done.
Qed.

Lemma grouped_new r regs p :
  p ∉ patterns_of regs -> grouped r regs p = new_FunctionSet p (origins r !! p).
Proof.
  intros Hp. pose proof (proj2 (last_registered_nil_iff p regs) Hp) as Hnone.
  unfold grouped, new_FunctionSet. by rewrite !Hnone.
Qed.

Lemma grouped_setHandler r regs p ev h :
  setHandler (grouped r regs p) ev h = grouped r (regs ++ [(p, ev, h)]) p.
Proof.
  unfold grouped, setHandler. rewrite !last_registered_snoc, String.eqb_refl.
  by destruct ev.
Qed.

Lemma grouped_other r regs p q ev h :
  p <> q -> grouped r (regs ++ [(p, ev, h)]) q = grouped r regs q.
Proof.
  intros Hne%String.eqb_neq. unfold grouped.
  by rewrite !last_registered_snoc, Hne.
Qed.

Lemma patterns_of_snoc regs p ev h q :
  q ∈ patterns_of (regs ++ [(p, ev, h)]) <-> q = p \/ q ∈ patterns_of regs.
Proof.
  unfold patterns_of. rewrite map_app, elem_of_app. simpl.
  rewrite list_elem_of_singleton. tauto.
Qed.

(** Entries that are not edge functions leave the registry as it is, so the
    loop over the filtered entries is the loop over all of them. *)
Lemma foldl_lambdaDefs r bs fns :
  foldl (register r) bs (lambdaDefs fns) = foldl (register r) bs fns.
Proof.
  unfold lambdaDefs. revert bs.
  induction fns as [|e fns IH]; intros bs; simpl; [done|].
  destruct (lambdaAtEdge e.2) eqn:E; simpl.
  - apply IH.
  - rewrite IH. unfold register at 3. by rewrite E.
Qed.

(** One turn of the loop keeps the registry grouped. *)
Lemma register_groups r also regs bs e :
  groups r also regs bs ->
  groups r also (regs ++ registration r e) (register r bs e).
Proof.
  intros (Hnd & Hkeys & Hget). unfold register, registration.
  destruct (lambdaAtEdge e.2) as [lae|]; [|by rewrite app_nil_r].
  set (p := pattern_of lae). set (h := path_join (path r) (handler e.2)).
  set (bs1 := if JsMap.has p bs then bs
              else JsMap.set p (new_FunctionSet p (origins r !! p)) bs).
  assert (Hbs1 : NoDup (JsMap.keys bs1) /\
                 (forall q, q ∈ JsMap.keys bs1 <-> q = p \/ q ∈ JsMap.keys bs) /\
                 JsMap.get p bs1 = Some (grouped r regs p) /\
                 (forall q, p <> q -> JsMap.get q bs1 = JsMap.get q bs)).
  { subst bs1. destruct (JsMap.has p bs) eqn:Ehas.
    - repeat split; auto.
      + intros [->|?]; [by apply has_keys|done].
      + unfold JsMap.has in Ehas. destruct (JsMap.get p bs) as [fs|] eqn:Eg; [|done].
        by rewrite (Hget _ _ Eg).
    - assert (p ∉ JsMap.keys bs) as Hnot.
      { intros Hin%has_keys. congruence. }
      split; [|split; [|split]].
      + by apply NoDup_keys_set.
      + intros q. apply elem_of_keys_set.
      + rewrite get_set_eq. f_equal. symmetry. apply grouped_new.
        intros Hin. apply Hnot, Hkeys. by right.
      + intros q Hne. by apply get_set_ne. }
  destruct Hbs1 as (Hnd1 & Hkeys1 & Hgetp & Hother). rewrite Hgetp.
  repeat split.
  - by apply NoDup_keys_set.
  - intros [->|Hq%Hkeys1]%elem_of_keys_set.
    + right. apply patterns_of_snoc. by left.
    + destruct Hq as [->|[?|?]%Hkeys]; [right| by left |right];
        apply patterns_of_snoc; auto.
  - intros [Hq|[->|Hq]%patterns_of_snoc]; apply elem_of_keys_set.
    + right. apply Hkeys1. right. apply Hkeys. by left.
    + by left.
    + right. apply Hkeys1. right. apply Hkeys. by right.
  - intros q fs. destruct (decide (p = q)) as [<-|Hne].
    + rewrite get_set_eq. intros [= <-]. apply grouped_setHandler.
    + rewrite get_set_ne, Hother by done. intros Hq%Hget.
      by rewrite grouped_other.
Qed.

Lemma foldl_register_groups r fns :
  groups r [] (flat_map (registration r) fns) (foldl (register r) [] fns).
Proof.
  induction fns as [|e fns IH] using rev_ind.
  - repeat split; simpl.
    + apply NoDup_nil_2.
    + by intros ?%elem_of_nil.
    + by intros [?%elem_of_nil|?%elem_of_nil].
    + done.
  - rewrite foldl_app, flat_map_app. simpl. rewrite app_nil_r.
    by apply register_groups.
Qed.

(** The registry that [extractBehaviors] leaves groups the registrations of
    the function list, next to the star. *)
Lemma extractBehaviors_groups r :
  groups r ["*"] (registrations r) (behaviors (extractBehaviors r)).
Proof.
  unfold extractBehaviors, registrations. simpl. unfold JsMap.clear.
  rewrite foldl_lambdaDefs.
  destruct (foldl_register_groups r (functions r)) as (Hnd & Hkeys & Hget).
  set (regs := flat_map (registration r) (functions r)) in *.
  set (bs := foldl (register r) [] (functions r)) in *.
  destruct (JsMap.has "*" bs) eqn:Ehas.
  - split; [done|]. split; [|done].
    intros p. rewrite Hkeys, list_elem_of_singleton. split.
    + intros [?%elem_of_nil|?]; [done|by right].
    + intros [->|?]; [|by right].
      apply has_keys, Hkeys in Ehas as [?%elem_of_nil|?]; [done|by right].
  - assert ("*" ∉ JsMap.keys bs) as Hnot.
    { intros Hin%has_keys. congruence. }
    split; [by apply NoDup_keys_set|]. split.
    + intros p. rewrite elem_of_keys_set, Hkeys, list_elem_of_singleton.
      split; [intros [?|[?%elem_of_nil|?]]; auto; done|intros [?|?]; auto].
    + intros p fs. destruct (decide ("*" = p)) as [<-|Hne].
      * rewrite get_set_eq. intros [= <-]. symmetry. apply grouped_new.
        intros Hin. apply Hnot, Hkeys. by right.
      * rewrite get_set_ne by done. apply Hget.
Qed.

(** In the registry built, no pattern has two entries, the star has one, and
    every behavior sits under its own pattern. *)
Lemma extractBehaviors_keyed r :
  let bs := behaviors (extractBehaviors r) in
  NoDup (JsMap.keys bs) /\ "*" ∈ JsMap.keys bs /\
  (forall p fs, (p, fs) ∈ bs -> pattern fs = p).
Proof.
  intros bs. destruct (extractBehaviors_groups r) as (Hnd & Hkeys & Hget).
  fold bs in Hnd, Hkeys, Hget. split; [done|]. split.
  - apply Hkeys. left. by apply list_elem_of_singleton.
  - intros p fs Hin. by apply (elem_of_get _ _ _ Hnd), Hget in Hin as ->.
Qed.

Lemma count_key {V} (m : JsMap.t V) (k : string) :
  NoDup (JsMap.keys m) -> k ∈ JsMap.keys m ->
  length (List.filter (fun e => String.eqb (fst e) k) m) = 1%nat.
Proof.
  unfold JsMap.keys. induction m as [|[k' v'] m IH]; simpl; intros Hnd Hin.
  - by apply elem_of_nil in Hin.
  - apply NoDup_cons in Hnd as [Hk Hnd]. destruct (String.eqb k' k) eqn:E.
    + apply String.eqb_eq in E as ->. simpl. f_equal.
      clear IH Hin Hnd. induction m as [|[k0 v0] m IH]; simpl; [done|].
      simpl in Hk. apply not_elem_of_cons in Hk as [Hne Hk].
      apply not_eq_sym, String.eqb_neq in Hne. rewrite Hne. by apply IH.
    + apply String.eqb_neq in E. apply elem_of_cons in Hin as [->|Hin]; [done|].
      by apply IH.
Qed.

(** C7.  After [extractBehaviors], whatever the function list: no pattern has
    two entries in the registry; the patterns are the star and those with a
    registration; the behavior under a pattern is the one that gathers the
    registrations of that pattern, each stage holding the handler registered
    last for it; exactly one behavior has the star for pattern; and when no
    registration uses the star, that behavior is the empty one. *)
Theorem extractBehaviors_registry r :
  let bs := behaviors (extractBehaviors r) in
  NoDup (JsMap.keys bs) /\
  (forall p, p ∈ JsMap.keys bs <-> p = "*" \/ p ∈ registered_patterns r) /\
  (forall p fs, (p, fs) ∈ bs ->
     pattern fs = p /\
     forall ev, slot fs ev = last_registered p ev (registrations r)) /\
  length (List.filter (fun e => String.eqb (pattern (snd e)) "*") bs) = 1%nat /\
  ("*" ∉ registered_patterns r ->
   JsMap.get "*" bs = Some (new_FunctionSet "*" (origins r !! "*"))).
Proof.
  intros bs. destruct (extractBehaviors_groups r) as (Hnd & Hkeys & Hget).
  fold bs in Hnd, Hkeys, Hget.
  assert (Hstar : "*" ∈ JsMap.keys bs).
  { apply Hkeys. left. by apply list_elem_of_singleton. }
  split; [done|]. split; [|split; [|split]].
  - intros p. rewrite Hkeys, list_elem_of_singleton. done.
  - intros p fs Hin. apply (elem_of_get _ _ _ Hnd), Hget in Hin as ->.
    split; [done|]. by intros [].
  - rewrite <- (count_key bs "*" Hnd Hstar). f_equal.
    apply List.filter_ext_in. intros [p fs] Hin%list_elem_of_In.
    apply (elem_of_get _ _ _ Hnd), Hget in Hin as ->. done.
  - intros Hnot. destruct (JsMap.get "*" bs) as [fs|] eqn:Eg.
    + rewrite (Hget _ _ Eg). f_equal. by apply grouped_new.
    + by apply get_None_keys in Eg.
Qed.

(** C8.  Building the registry twice leaves the router as building it once
    does, and what the registry held before a build has no part in what it
    holds after. *)
Theorem extractBehaviors_idempotent r :
  extractBehaviors (extractBehaviors r) = extractBehaviors r /\
  (forall prior, extractBehaviors (with_behaviors prior r) = extractBehaviors r).
Proof. split; [|intros prior]; reflexivity. Qed.

End Registry.

(** ** Resolving a request to a behavior *)

Section Matching.
Context `{Externals}.
Implicit Types (r : BehaviorRouter) (req : IncomingMessage).

(** With a URL that parses, [match] is a function of the pathname alone. *)
Lemma match_pathname r req u pn :
  url req = Some u -> u <> "" -> url_pathname u = Normal pn ->
  match_ r req =
  Normal match JsMap.first_value (fun h => regex h pn) (behaviors r) with
         | Some h => Some h
         | None => JsMap.get "*" (behaviors r)
         end.
Proof.
  intros Hu Hne%String.eqb_neq Hpn. unfold match_. rewrite Hu, Hne, Hpn.
  by destruct (JsMap.first_value _ _).
Qed.

(** C1, as the code has it.  Once the registry is built, a request whose URL
    is not empty and parses resolves to a behavior of the registry, never to
    null; and when the matcher of no behavior other than the star accepts the
    pathname, that behavior is the one under the star. *)
Theorem match_after_extractBehaviors r req u pn :
  url req = Some u -> u <> "" -> url_pathname u = Normal pn ->
  let bs := behaviors (extractBehaviors r) in
  exists h,
    match_ (extractBehaviors r) req = Normal (Some h) /\
    (pattern h, h) ∈ bs /\
    ((forall p fs, (p, fs) ∈ bs -> p <> "*" -> regex fs pn = false) ->
     pattern h = "*" /\ JsMap.get "*" bs = Some h).
Proof.
  intros Hu Hne Hpn bs. rewrite (match_pathname _ _ _ _ Hu Hne Hpn). fold bs.
  destruct (extractBehaviors_keyed r) as (Hnd & Hstar & Hpat).
  fold bs in Hnd, Hstar, Hpat.
  destruct (JsMap.first_value _ bs) as [h|] eqn:Ef.
  - apply first_value_Some in Ef as (m1 & k & m2 & Hbs & Hacc & _).
    assert ((k, h) ∈ bs) as Hin.
    { rewrite Hbs. apply elem_of_app. right. apply elem_of_cons. by left. }
    pose proof (Hpat _ _ Hin) as Hk. exists h. rewrite Hk.
    split; [done|]. split; [done|]. intros Hnone.
    destruct (decide (k = "*")) as [->|Hk'].
    + split; [done|]. by apply elem_of_get.
    + rewrite (Hnone _ _ Hin Hk') in Hacc. done.
  - destruct (JsMap.get "*" bs) as [h|] eqn:Eg.
    + apply get_elem_of in Eg as Hin. pose proof (Hpat _ _ Hin) as Hk.
      exists h. rewrite Hk. split; [done|]. split; [done|]. by intros _.
    + by apply get_None_keys in Eg.
Qed.

(** C9, as the code has it.  Two requests whose URLs are not empty and have
    the same pathname resolve to the same behavior, whatever their query
    strings and fragments. *)
Theorem match_same_pathname r req1 req2 u1 u2 pn :
  url req1 = Some u1 -> url req2 = Some u2 ->
  u1 <> "" -> u2 <> "" ->
  url_pathname u1 = Normal pn -> url_pathname u2 = Normal pn ->
  match_ r req1 = match_ r req2.
Proof.
  intros Hu1 Hu2 Hne1 Hne2 Hp1 Hp2.
  by rewrite (match_pathname _ _ _ _ Hu1 Hne1 Hp1), (match_pathname _ _ _ _ Hu2 Hne2 Hp2).
Qed.

Lemma non_wildcard_snoc_star (bs : JsMap.t FunctionSet) fs :
  JsMap.has "*" bs = false -> non_wildcard (bs ++ [("*", fs)])%list = bs.
Proof.
  unfold non_wildcard, JsMap.has. induction bs as [|[k v] bs IH]; simpl; [done|].
  destruct (String.eqb k "*"); [done|]. simpl. intros Hm. by rewrite IH.
Qed.

(** When no edge function is registered for the star, the star behavior is
    the last entry of the registry, and [match] resolves as specified: the
    first behavior other than the star whose matcher accepts the pathname,
    the star behavior when there is none. *)
Theorem match_as_specified r req u pn :
  "*" ∉ registered_patterns r ->
  url req = Some u -> u <> "" -> url_pathname u = Normal pn ->
  match_ (extractBehaviors r) req =
  Normal (resolve_spec (behaviors (extractBehaviors r)) pn).
Proof.
  intros Hstar Hu Hne Hpn. rewrite (match_pathname _ _ _ _ Hu Hne Hpn). f_equal.
  unfold resolve_spec, extractBehaviors. simpl. unfold JsMap.clear.
  rewrite foldl_lambdaDefs.
  destruct (foldl_register_groups r (functions r)) as (_ & Hkeys & _).
  set (bs := foldl (register r) [] (functions r)) in *.
  assert (JsMap.has "*" bs = false) as Hhas.
  { destruct (JsMap.has "*" bs) eqn:E; [|done].
    apply has_keys, Hkeys in E as [?%elem_of_nil|?]; done. }
  rewrite Hhas, (set_fresh _ _ _ Hhas), first_value_snoc,
    (non_wildcard_snoc_star _ _ Hhas), (get_app_fresh _ _ _ Hhas).
  destruct (JsMap.first_value _ bs); [done|]. by destruct (regex _ pn).
Qed.

(** A request without a URL, or with the empty one, resolves to null. *)
Lemma match_no_url r req : Js.falsy_string (url req) = true -> match_ r req = Normal None.
Proof.
  unfold match_, Js.falsy_string. destruct (url req) as [u|]; [|done]. by intros ->.
Qed.

End Matching.

(** ** Serving a request *)

Section Serving.
Context `{Externals}.
Implicit Types (r : BehaviorRouter) (req : IncomingMessage) (w : World).

(** C3.  A request whose method is PURGE, in any letter case, is answered
    before any behavior is looked up: the cache is purged, the status is 200,
    the response is ended with nothing written to its body, and the only call
    made is the purge; no lifecycle is built or run. *)
Theorem middleware_purge r req m w :
  method req = Some m -> Js.toUpperCase m = "PURGE" ->
  listen_middleware r req w =
  (Normal tt,
   {| w_res := end_ None (set_statusCode (Js.Num 200) (w_res w));
      w_cache := purge (w_cache w);
      w_calls := w_calls w ++ [CallPurge] |}) /\
  res_statusCode (w_res (listen_middleware r req w).2) = Js.Num 200 /\
  res_body (w_res (listen_middleware r req w).2) = res_body (w_res w) /\
  res_finished (w_res (listen_middleware r req w).2) = true /\
  w_cache (listen_middleware r req w).2 = ∅ /\
  (forall c, c ∈ w_calls (listen_middleware r req w).2 -> c ∈ w_calls w \/ c = CallPurge).
Proof.
  intros Hm Hup.
  assert (listen_middleware r req w =
          (Normal tt,
           {| w_res := end_ None (set_statusCode (Js.Num 200) (w_res w));
              w_cache := purge (w_cache w);
              w_calls := w_calls w ++ [CallPurge] |})) as ->.
  { unfold listen_middleware. rewrite Hm. unfold Js.or_string.
    destruct (String.eqb m "") eqn:Em.
    - apply String.eqb_eq in Em. subst m. discriminate Hup.
    - rewrite Hup. reflexivity. }
  simpl. repeat split.
  intros c [?|Hc%list_elem_of_singleton]%elem_of_app; auto.
Qed.

(** C4.  [handleError] sets the status to the code the error carries, and to
    500 when it carries none (or zero), and ends the response with the text
    of a JSON object made of a [code] and a [message] member. *)
Theorem handleError_response (err : HttpError) w :
  let w' := (handleError err w).2 in
  (handleError err w).1 = Normal tt /\
  (forall c, statusCode err = Some c -> c <> 0 -> res_statusCode (w_res w') = Js.Num c) /\
  (statusCode err = None \/ statusCode err = Some 0 ->
   res_statusCode (w_res w') = Js.Num 500) /\
  (exists c msg,
     res_body (w_res w') =
     res_body (w_res w) ++
     Js.stringify (Js.JObject [("code", Js.JNumber c); ("message", Js.JString msg)])) /\
  res_finished (w_res w') = true /\
  w_cache w' = w_cache w /\ w_calls w' = w_calls w.
Proof.
  simpl. split; [done|]. split; [|split].
  - intros c -> Hc. simpl. apply Z.eqb_neq in Hc. by rewrite Hc.
  - by intros [->| ->].
  - split; [|done]. by eexists _, _.
Qed.

Lemma write_headers_run (hs : list HttpHeader) w :
  let sent := sent_headers hs in
  write_headers hs w =
  (Normal tt,
   {| w_res := foldl (fun res h => setHeader (key h) (value h) res) (w_res w) sent;
      w_cache := w_cache w;
      w_calls := w_calls w ++ map (fun h => CallSetHeader (key h) (value h)) sent |}).
Proof.
  unfold sent_headers. revert w. induction hs as [|h hs IH]; intros w; simpl.
  - destruct w. simpl. by rewrite app_nil_r.
  - unfold mbind, M_bind. destruct (truthy (value h)); simpl.
    + rewrite IH. simpl. by rewrite <- app_assoc.
    + by rewrite IH.
Qed.

(** C5.  When the lifecycle resolves without a response, the request is
    failed with the internal server error made for that case: what the
    client gets is what [handleError] writes for it, the status line and the
    headers of the response being left as they were. *)
Theorem middleware_no_response r req w h cache' :
  not_purge req ->
  match_ r req = Normal (Some h) ->
  lifecycle_run (convertToCloudFrontEvent req) h (default "" (url req)) (w_cache w)
    = (Normal None, cache') ->
  let err := InternalServerError "No response set after full request lifecycle" in
  let w' := (listen_middleware r req w).2 in
  listen_middleware r req w =
    handleError err {| w_res := w_res w; w_cache := cache';
                       w_calls := w_calls w ++ lifecycle_calls h req |} /\
  res_statusCode (w_res w') = Js.Num (Js.or_number (statusCode err) 500) /\
  res_statusMessage (w_res w') = res_statusMessage (w_res w) /\
  res_headers (w_res w') = res_headers (w_res w) /\
  (exists c msg,
     res_body (w_res w') =
     res_body (w_res w) ++
     Js.stringify (Js.JObject [("code", Js.JNumber c); ("message", Js.JString msg)])) /\
  res_finished (w_res w') = true.
Proof.
  intros Hnp Hm Hrun err w'.
  assert (listen_middleware r req w =
          handleError err {| w_res := w_res w; w_cache := cache';
                             w_calls := w_calls w ++ lifecycle_calls h req |}) as Heq.
  { unfold listen_middleware. apply String.eqb_neq in Hnp. rewrite Hnp.
    unfold mbind, M_bind, call, completion, try_catch, run, throw. simpl.
    rewrite Hm. simpl. rewrite Hrun. simpl.
    unfold lifecycle_calls. by rewrite <- !app_assoc. }
  subst w'. rewrite Heq. split; [done|]. simpl. repeat split.
  by eexists _, _.
Qed.

(** C6, as the code has it.  When no behavior is resolved, the status is 404
    and the response is ended with nothing written to its body; no lifecycle
    is built. *)
Theorem middleware_no_behavior r req w :
  not_purge req ->
  match_ r req = Normal None ->
  let w' := (listen_middleware r req w).2 in
  (listen_middleware r req w).1 = Normal tt /\
  res_statusCode (w_res w') = Js.Num 404 /\
  res_body (w_res w') = res_body (w_res w) /\
  res_finished (w_res w') = true /\
  w_cache w' = w_cache w /\
  w_calls w' = (w_calls w ++ [CallMatch; CallConvertToCloudFrontEvent])%list.
Proof.
  intros Hnp Hm. unfold listen_middleware. apply String.eqb_neq in Hnp. rewrite Hnp.
  unfold mbind, M_bind, call, completion. simpl. rewrite Hm. simpl.
  repeat split. by rewrite <- app_assoc.
Qed.

(** An error that the lifecycle rejects with is handed to [handleError],
    the status line and the headers of the response being left as they were. *)
Theorem middleware_lifecycle_error r req w h err cache' :
  not_purge req ->
  match_ r req = Normal (Some h) ->
  lifecycle_run (convertToCloudFrontEvent req) h (default "" (url req)) (w_cache w)
    = (Throw err, cache') ->
  listen_middleware r req w =
    handleError err {| w_res := w_res w; w_cache := cache';
                       w_calls := w_calls w ++ lifecycle_calls h req |}.
Proof.
  intros Hnp Hm Hrun. unfold listen_middleware.
  apply String.eqb_neq in Hnp. rewrite Hnp.
  unfold mbind, M_bind, call, completion, try_catch, run, throw. simpl.
  rewrite Hm. simpl. rewrite Hrun. simpl.
  unfold lifecycle_calls. by rewrite <- !app_assoc.
Qed.

Lemma get_foldl_setHeader (l : list HttpHeader) (m : JsMap.t (string * HeaderValue)) k x :
  JsMap.get k
    (foldl (fun m hd => JsMap.set (Js.toLowerCase (key hd)) (key hd, value hd) m) m l)
    = Some x ->
  JsMap.get k m = Some x \/ exists hd, hd ∈ l /\ x = (key hd, value hd).
Proof.
  revert m. induction l as [|hd l IH]; intros m; simpl; [by left|].
  intros [Hg|(hd' & Hin & ->)]%IH.
  - destruct (decide (Js.toLowerCase (key hd) = k)) as [<-|Hne].
    + rewrite get_set_eq in Hg. injection Hg as <-. right. exists hd.
      split; [apply elem_of_cons; by left|done].
    + rewrite get_set_ne in Hg by done. by left.
  - right. exists hd'. split; [apply elem_of_cons; by right|done].
Qed.

(** C10.  When the lifecycle resolves to a response, the headers handed to
    [setHeader] are those whose value is truthy, in their order, and no
    other: a header whose value is the empty string, undefined or null is
    left out, both of the calls and of the headers of the response. *)
Theorem middleware_headers r req w h response cache' :
  not_purge req ->
  match_ r req = Normal (Some h) ->
  lifecycle_run (convertToCloudFrontEvent req) h (default "" (url req)) (w_cache w)
    = (Normal (Some response), cache') ->
  let hs := asHttpHeaders (headers response) in
  let w' := (listen_middleware r req w).2 in
  (listen_middleware r req w).1 = Normal tt /\
  w_calls w' =
    (w_calls w ++ lifecycle_calls h req ++
     map (fun hd => CallSetHeader (key hd) (value hd)) (sent_headers hs))%list /\
  res_headers (w_res w') =
    foldl (fun m hd => JsMap.set (Js.toLowerCase (key hd)) (key hd, value hd) m)
          (res_headers (w_res w)) (sent_headers hs) /\
  (forall hd, hd ∈ sent_headers hs <-> hd ∈ hs /\ truthy (value hd) = true) /\
  (forall name v,
     v = HString "" \/ v = HUndefined \/ v = HNull ->
     (CallSetHeader name v ∈ w_calls w' -> CallSetHeader name v ∈ w_calls w) /\
     (forall k, JsMap.get k (res_headers (w_res w')) = Some (name, v) ->
                JsMap.get k (res_headers (w_res w)) = Some (name, v))) /\
  (forall name v,
     CallSetHeader name v ∈ w_calls w' ->
     CallSetHeader name v ∈ w_calls w \/ truthy v = true).
Proof.
  intros Hnp Hm Hrun hs w'.
  assert (Hsent : forall hd, hd ∈ sent_headers hs <-> hd ∈ hs /\ truthy (value hd) = true).
  { intros hd. unfold sent_headers. rewrite !list_elem_of_In. apply List.filter_In. }
  assert (listen_middleware r req w =
          (Normal tt,
           {| w_res :=
                end_ (body response)
                  (foldl (fun res hd => setHeader (key hd) (value hd) res)
                     (set_statusMessage (Js.or_string (statusDescription response) "")
                        (set_statusCode (Js.parseInt10 (status response)) (w_res w)))
                     (sent_headers hs));
              w_cache := cache';
              w_calls := w_calls w ++ lifecycle_calls h req ++
                         map (fun hd => CallSetHeader (key hd) (value hd))
                             (sent_headers hs) |})) as Heq.
  { unfold listen_middleware. apply String.eqb_neq in Hnp. rewrite Hnp.
    unfold mbind, M_bind, call, completion, try_catch, run, on_res. simpl.
    rewrite Hm. simpl. rewrite Hrun. simpl. rewrite write_headers_run. simpl.
    unfold lifecycle_calls. fold hs. by rewrite <- !app_assoc. }
  assert (Hheaders :
            res_headers (w_res w') =
            foldl (fun m hd => JsMap.set (Js.toLowerCase (key hd)) (key hd, value hd) m)
                  (res_headers (w_res w)) (sent_headers hs)).
  { subst w'. rewrite Heq. simpl.
    assert (forall l res,
              res_headers (foldl (fun res hd => setHeader (key hd) (value hd) res) res l) =
              foldl (fun m hd => JsMap.set (Js.toLowerCase (key hd)) (key hd, value hd) m)
                    (res_headers res) l) as Hfold.
    { induction l as [|hd l IH]; intros res; simpl; [done|]. by rewrite IH. }
    by rewrite Hfold. }
  assert (Hcalls : forall name v,
            CallSetHeader name v ∈ w_calls w' ->
            CallSetHeader name v ∈ w_calls w \/ truthy v = true).
  { subst w'. rewrite Heq. cbn [snd w_calls].
    intros name v [?|[Hin|Hin]%elem_of_app]%elem_of_app.
    - by left.
    - unfold lifecycle_calls in Hin.
      repeat (apply elem_of_cons in Hin as [Hin|Hin]; [discriminate Hin|]).
      by apply elem_of_nil in Hin.
    - apply list_elem_of_fmap in Hin as (hd & [= -> ->] & Hhd).
      right. by apply (proj1 (Hsent hd)) in Hhd as [_ Ht]. }
  split; [by subst w'; rewrite Heq|].
  split; [by subst w'; rewrite Heq|].
  split; [done|]. split; [done|]. split; [|done].
  intros name v Hfalsy. split.
  - intros [?|Ht]%Hcalls; [done|]. by destruct Hfalsy as [->|[->| ->]].
  - intros k. rewrite Hheaders.
    intros [?|(hd & Hhd & [= -> ->])]%get_foldl_setHeader; [done|].
    apply (proj1 (Hsent hd)) in Hhd as [_ Ht].
    by destruct Hfalsy as [E|[E|E]]; rewrite E in Ht.
Qed.

End Serving.

(** ** The theorems at concrete requests *)

Section Examples.
Import Reference.

(** C1 at a request for [/api/users?page=2] of the reference service. *)
Lemma match_after_extractBehaviors_witness :
  exists h,
    match_ (H := quiet) (built quiet) (get "/api/users?page=2") = Normal (Some h) /\
    (pattern h, h) ∈ behaviors (built quiet) /\
    ((forall p fs, (p, fs) ∈ behaviors (built quiet) -> p <> "*" ->
                   regex fs "/api/users" = false) ->
     pattern h = "*" /\ JsMap.get "*" (behaviors (built quiet)) = Some h).
Proof.
  apply (match_after_extractBehaviors (H := quiet) (router service)
           (get "/api/users?page=2") "/api/users?page=2" "/api/users");
    [reflexivity | discriminate | reflexivity].
Defined.

(** C1, the case the code sets apart: a request that carries no URL resolves
    to null although the registry is built. *)
Lemma match_null_without_url :
  ~ exists h, match_ (H := quiet) (built quiet) no_url = Normal (Some h).
Proof. intros [h Hh]. discriminate Hh. Qed.

(** C2 at the service whose default edge function is declared first: a
    request for [/api/users] resolves to the star behavior, although the
    behavior of [/api/*], registered under a pattern other than the star,
    accepts that path and is what the specified resolution returns. *)
Theorem match_star_registered_first :
  exists h h',
    match_ (H := quiet) (built quiet) (get "/api/users") = Normal (Some h) /\
    pattern h = "*" /\
    resolve_spec (behaviors (built quiet)) "/api/users" = Some h' /\
    pattern h' = "/api/*" /\
    regex h' "/api/users" = true.
Proof. eexists _, _. repeat split; reflexivity. Qed.

(** C3 at a PURGE request on a fresh response. *)
Lemma middleware_purge_witness :
  listen_middleware (H := quiet) (built quiet) purge_request (start (built quiet)) =
  (Normal tt,
   {| w_res := {| res_statusCode := Js.Num 200; res_statusMessage := "";
                  res_headers := []; res_body := ""; res_finished := true |};
      w_cache := ∅; w_calls := [CallPurge] |}).
Proof.
  apply (middleware_purge (H := quiet) (built quiet) purge_request "PURGE" (start (built quiet)));
    reflexivity.
Defined.

(** C5 around the lifecycle that resolves without a response. *)
Lemma middleware_no_response_witness :
  res_statusCode
    (w_res (listen_middleware (H := quiet) (built quiet) (get "/api/users") (start (built quiet))).2)
  = Js.Num 500.
Proof.
  apply (middleware_no_response (H := quiet) (built quiet) (get "/api/users")
           (start (built quiet)) (star_behavior quiet) ∅);
    [discriminate | reflexivity | reflexivity].
Defined.

(** C6 at a request whose URL is empty. *)
Lemma middleware_no_behavior_witness :
  res_statusCode
    (w_res (listen_middleware (H := quiet) (built quiet) (get "") (start (built quiet))).2)
  = Js.Num 404.
Proof.
  apply (middleware_no_behavior (H := quiet) (built quiet) (get "") (start (built quiet)));
    [discriminate | reflexivity].
Defined.

(** C6, the part the code does not do: the body of the 404 is empty, which is
    not the text of a JSON object. *)
Lemma not_found_body_is_not_json :
  not_purge (get "") /\
  match_ (H := quiet) (built quiet) (get "") = Normal None /\
  let res := w_res (listen_middleware (H := quiet) (built quiet) (get "") (start (built quiet))).2 in
  res_statusCode res = Js.Num 404 /\
  res_body res = "" /\
  ~ is_json_object (res_body res).
Proof.
  split; [discriminate|]. split; [reflexivity|]. simpl.
  split; [reflexivity|]. split; [reflexivity|].
  intros [members Hm]. discriminate Hm.
Qed.

(** C9 at two targets that differ in query string and fragment. *)
Lemma match_same_pathname_witness :
  match_ (H := quiet) (built quiet) (get "/api/users?page=2") =
  match_ (H := quiet) (built quiet) (get "/api/users#top").
Proof.
  apply (match_same_pathname (H := quiet) (built quiet) _ _
           "/api/users?page=2" "/api/users#top" "/api/users");
    (reflexivity || discriminate).
Defined.

(** C9, the case the code sets apart: the empty URL and [/?x=1] have the
    same pathname, and the first resolves to null while the second resolves
    to a behavior. *)
Lemma match_differs_on_empty_url :
  url_pathname (Externals := quiet) "" = Normal "/" /\
  url_pathname (Externals := quiet) "/?x=1" = Normal "/" /\
  match_ (H := quiet) (built quiet) (get "") <>
  match_ (H := quiet) (built quiet) (get "/?x=1").
Proof. repeat split. discriminate. Qed.

(** C10 around the lifecycle whose response has a header with an empty
    value: only the other header is set. *)
Lemma middleware_headers_witness :
  w_calls (listen_middleware (H := answering) (built answering) (get "/api/users")
             (start (built answering))).2 =
  [CallMatch; CallConvertToCloudFrontEvent; CallNewLifecycle "*";
   CallLifecycleRun "/api/users"; CallSetHeader "Content-Type" (HString "text/plain")].
Proof.
  apply (middleware_headers (H := answering) (built answering) (get "/api/users")
           (start (built answering)) (star_behavior answering) hello ∅);
    [discriminate | reflexivity | reflexivity].
Defined.

(** The specified resolution at a service with no function for the star. *)
Lemma match_as_specified_witness :
  match_ (H := quiet) (extractBehaviors (H := quiet) (router api_only)) (get "/api/users") =
  Normal (resolve_spec (behaviors (extractBehaviors (H := quiet) (router api_only)))
            "/api/users").
Proof.
  apply (match_as_specified (H := quiet) (router api_only) (get "/api/users")
           "/api/users" "/api/users");
    [|reflexivity|discriminate|reflexivity].
  intros Hin. repeat (apply elem_of_cons in Hin as [Hin|Hin]; [discriminate Hin|]).
  by apply elem_of_nil in Hin.
Defined.

(** A lifecycle that rejects with a 502: the client gets that status and the
    JSON body of the error. *)
Lemma middleware_lifecycle_error_witness :
  (listen_middleware (H := externals failing) (built (externals failing))
     (get "/api/users") (start (built (externals failing)))).2 =
  {| w_res := {| res_statusCode := Js.Num 502; res_statusMessage := "";
                 res_headers := [];
                 res_body := Js.stringify
                               (Js.JObject [("code", Js.JNumber 500);
                                            ("message", Js.JString "origin unavailable")]);
                 res_finished := true |};
     w_cache := ∅;
     w_calls := lifecycle_calls (star_behavior quiet) (get "/api/users") |}.
Proof.
  rewrite (middleware_lifecycle_error (H := externals failing) (built (externals failing))
             (get "/api/users") (start (built (externals failing)))
             (star_behavior (externals failing)) bad_gateway ∅);
    [reflexivity | discriminate | reflexivity | reflexivity].
Defined.

End Examples.

(** ** More on the registry *)

Section RegistryOrder.
Context `{Externals}.
Implicit Types (r : BehaviorRouter) (bs : JsMap.t FunctionSet) (p : string).

Lemma has_bool_decide {V} (m : JsMap.t V) p :
  JsMap.has p m = bool_decide (p ∈ JsMap.keys m).
Proof.
  destruct (JsMap.has p m) eqn:E; symmetry.
  - apply bool_decide_eq_true_2. by apply has_keys.
  - apply bool_decide_eq_false_2. intros Hin%has_keys. congruence.
Qed.

Lemma keys_set_see {V} (m : JsMap.t V) p v :
  JsMap.keys (JsMap.set p v m) = see (JsMap.keys m) p.
Proof. unfold see. by rewrite keys_set, has_bool_decide. Qed.

Lemma see_seen acc p : p ∈ acc -> see acc p = acc.
Proof. intros Hin. unfold see. by rewrite bool_decide_eq_true_2. Qed.

Lemma elem_of_see acc p : p ∈ see acc p.
Proof.
  unfold see. case_bool_decide; [done|].
  apply elem_of_app. right. by apply list_elem_of_singleton.
Qed.

(** One turn of the loop adds the pattern of the entry at the end of the
    iteration order when it is new, and leaves the order alone otherwise. *)
Lemma keys_register r bs e :
  JsMap.keys (register r bs e) =
  foldl see (JsMap.keys bs) (patterns_of (registration r e)).
Proof.
  unfold register, registration. destruct (lambdaAtEdge e.2) as [lae|]; [|done].
  simpl. set (p := pattern_of lae).
  set (bs1 := if JsMap.has p bs then bs
              else JsMap.set p (new_FunctionSet p (origins r !! p)) bs).
  assert (JsMap.keys bs1 = see (JsMap.keys bs) p) as Hk.
  { subst bs1. destruct (JsMap.has p bs) eqn:E.
    - symmetry. by apply see_seen, has_keys.
    - apply keys_set_see. }
  destruct (JsMap.get p bs1) as [fs|]; [|done].
  rewrite keys_set_see, Hk. apply see_seen, elem_of_see.
Qed.

Lemma keys_foldl_register r bs fns :
  JsMap.keys (foldl (register r) bs fns) =
  foldl see (JsMap.keys bs) (patterns_of (flat_map (registration r) fns)).
Proof.
  revert bs. induction fns as [|e fns IH]; intros bs; simpl; [done|].
  rewrite IH, keys_register. unfold patterns_of.
  by rewrite map_app, foldl_app.
Qed.

(** The iteration order of the registry, which is the order [match] tries
    the behaviors in: the patterns in the order of their first registration,
    then the star when no edge function was registered for it. *)
Theorem extractBehaviors_order r :
  JsMap.keys (behaviors (extractBehaviors r)) =
  let ks := first_seen (registered_patterns r) in
  if bool_decide ("*" ∈ ks) then ks else (ks ++ ["*"])%list.
Proof.
  unfold extractBehaviors, registered_patterns, registrations, first_seen.
  simpl. unfold JsMap.clear. rewrite foldl_lambdaDefs.
  pose proof (keys_foldl_register r [] (functions r)) as Hk. simpl in Hk.
  rewrite <- Hk.
  set (bs := foldl (register r) [] (functions r)).
  rewrite has_bool_decide. case_bool_decide; [done|].
  rewrite keys_set_see. unfold see. by rewrite bool_decide_eq_false_2.
Qed.

(** Every behavior of the registry has the matcher compiled from its own
    pattern and the origin that the origin map gives that pattern, none when
    the map has no entry for it. *)
Theorem extractBehaviors_origin r p fs :
  (p, fs) ∈ behaviors (extractBehaviors r) ->
  regex fs = compile_pattern p /\ origin fs = origins r !! p.
Proof.
  destruct (extractBehaviors_groups r) as (Hnd & _ & Hget).
  intros Hin. by apply (elem_of_get _ _ _ Hnd), Hget in Hin as ->.
Qed.

(** Without any edge function the registry holds the star behavior alone,
    with no handler, and every request whose URL parses resolves to it,
    whether or not its matcher accepts the pathname. *)
Theorem extractBehaviors_no_edge_function r req u pn :
  lambdaDefs (functions r) = [] ->
  url req = Some u -> u <> "" -> url_pathname u = Normal pn ->
  behaviors (extractBehaviors r) = [("*", new_FunctionSet "*" (origins r !! "*"))] /\
  match_ (extractBehaviors r) req = Normal (Some (new_FunctionSet "*" (origins r !! "*"))).
Proof.
  intros Hnone Hu Hne Hpn.
  assert (behaviors (extractBehaviors r) =
          [("*", new_FunctionSet "*" (origins r !! "*"))]) as Hb.
  { unfold extractBehaviors. simpl. by rewrite Hnone. }
  split; [done|]. rewrite (match_pathname _ _ _ _ Hu Hne Hpn), Hb. simpl.
  by destruct (compile_pattern "*" pn).
Qed.

End RegistryOrder.

(** ** The origin map *)

Section Origins.
Implicit Types (ms : list OriginMapping) (p : string).

Lemma foldl_origins_other ms p (acc : gmap string Origin) :
  p ∉ map om_pathPattern ms ->
  foldl (fun acc item => <[om_pathPattern item := {| target := om_target item |}]> acc)
        acc ms !! p = acc !! p.
Proof.
  revert acc. induction ms as [|m ms IH]; intros acc Hp; simpl; [done|].
  simpl in Hp. apply not_elem_of_cons in Hp as [Hne Hp].
  rewrite IH by done. by rewrite lookup_insert_ne.
Qed.

(** [configureOrigins]: a pattern without a mapping has no origin, and a
    pattern with several mappings has the target of the last of them. *)
Theorem configureOrigins_lookup ms p :
  (p ∉ map om_pathPattern ms -> configureOrigins ms !! p = None) /\
  (forall ms1 m ms2,
     ms = (ms1 ++ m :: ms2)%list -> om_pathPattern m = p ->
     p ∉ map om_pathPattern ms2 ->
     configureOrigins ms !! p = Some {| target := om_target m |}).
Proof.
  unfold configureOrigins. split.
  - intros Hp. by rewrite foldl_origins_other.
  - intros ms1 m ms2 -> <- Hp. rewrite foldl_app. simpl.
    rewrite foldl_origins_other by done. by rewrite lookup_insert_eq.
Qed.

End Origins.

(** ** More on resolving and serving *)

Section Answers.
Context `{Externals}.
Implicit Types (r : BehaviorRouter) (req : IncomingMessage) (w : World).

(** The behavior [match] returns is the earliest entry of the registry whose
    matcher accepts the pathname, the star entry included; only when no
    matcher accepts it is the result the entry under the star. *)
Theorem match_earliest_accepting r req u pn h :
  url req = Some u -> u <> "" -> url_pathname u = Normal pn ->
  match_ r req = Normal (Some h) ->
  (exists before k after,
     behaviors r = (before ++ (k, h) :: after)%list /\
     regex h pn = true /\
     Forall (fun e => regex (snd e) pn = false) before) \/
  (Forall (fun e => regex (snd e) pn = false) (behaviors r) /\
   JsMap.get "*" (behaviors r) = Some h).
Proof.
  intros Hu Hne Hpn. rewrite (match_pathname _ _ _ _ Hu Hne Hpn).
  destruct (JsMap.first_value _ _) as [h'|] eqn:Ef; intros [= Hh].
  - subst h'. left. by apply first_value_Some in Ef.
  - right. split; [|done]. by apply (first_value_None (fun h => regex h pn)).
Qed.

(** When [match] returns null: the request has no URL or the empty one, or
    the matcher of no behavior accepts its pathname and the registry has no
    entry under the star. *)
Lemma match_null_iff r req :
  match_ r req = Normal None <->
  Js.falsy_string (url req) = true \/
  exists u pn, url req = Some u /\ url_pathname u = Normal pn /\
               Forall (fun e => regex (snd e) pn = false) (behaviors r) /\
               "*" ∉ JsMap.keys (behaviors r).
Proof.
  unfold match_, Js.falsy_string. destruct (url req) as [u|]; [|by split; auto].
  destruct (String.eqb u "") eqn:Eu; [by split; auto|].
  split.
  - destruct (url_pathname u) as [pn|e] eqn:Ep; [|done].
    destruct (JsMap.first_value _ _) eqn:Ef; [done|]. intros [= Hg].
    right. exists u, pn. split; [done|]. split; [done|].
    split; [by apply (first_value_None (fun h => regex h pn))|by apply get_None_keys].
  - intros [?|(u' & pn & [= <-] & Hp & Hall & Hstar)]; [done|].
    rewrite Hp. apply (first_value_None (fun h => regex h pn)) in Hall. rewrite Hall.
    f_equal. by apply get_None_keys.
Qed.

(** Once the registry is built, the requests that resolve to null, and so
    are answered 404, are exactly those without a URL or with the empty
    one. *)
Theorem match_null_after_extractBehaviors r req :
  match_ (extractBehaviors r) req = Normal None <-> Js.falsy_string (url req) = true.
Proof.
  rewrite match_null_iff. split; [|by left].
  intros [?|(u & pn & _ & _ & _ & Hstar)]; [done|].
  destruct Hstar. by destruct (extractBehaviors_keyed r) as (_ & ? & _).
Qed.


(** What the client gets when the lifecycle rejects with an error that has
    no [getResponsePayload] of its own: the status is the code the error
    carries, but the [code] member of the body is 500 whatever that code is,
    and the [message] member is the stack of the error, or its message when
    it has no stack. *)
Theorem middleware_error_body r req w h err cache' :
  not_purge req ->
  match_ r req = Normal (Some h) ->
  lifecycle_run (convertToCloudFrontEvent req) h (default "" (url req)) (w_cache w)
    = (Throw err, cache') ->
  own_getResponsePayload err = None ->
  let res := w_res (listen_middleware r req w).2 in
  res_statusCode res = Js.Num (Js.or_number (statusCode err) 500) /\
  res_body res =
    res_body (w_res w) ++
    Js.stringify
      (Js.JObject [("code", Js.JNumber 500);
                   ("message", Js.JString (Js.or_string (err_stack err) (err_message err)))]) /\
  res_statusMessage res = res_statusMessage (w_res w) /\
  res_headers res = res_headers (w_res w).
Proof.
  intros Hnp Hm Hrun Hown. unfold listen_middleware.
  apply String.eqb_neq in Hnp. rewrite Hnp.
  unfold mbind, M_bind, call, completion, try_catch, run, throw. simpl.
  rewrite Hm. simpl. rewrite Hrun. simpl. by rewrite Hown.
Qed.

End Answers.

Section Responses.
Context `{Externals}.
Implicit Types (r : BehaviorRouter) (req : IncomingMessage) (w : World).

(** A request whose URL the parser refuses is not answered by the
    middleware: the error is thrown on before any behavior is looked up,
    nothing is written to the response, and [handleError] has no part in
    it. *)
Theorem middleware_invalid_url r req w u e :
  not_purge req ->
  url req = Some u -> u <> "" -> url_pathname u = Throw e ->
  listen_middleware r req w =
  (Throw e, {| w_res := w_res w; w_cache := w_cache w;
               w_calls := w_calls w ++ [CallMatch] |}).
Proof.
  intros Hnp%String.eqb_neq Hu Hne%String.eqb_neq Hp.
  unfold listen_middleware. rewrite Hnp.
  unfold mbind, M_bind, call, completion, match_. simpl.
  by rewrite Hu, Hne, Hp.
Qed.



End Responses.

(** ** Construction and start-up *)

Section Startup.
Context `{Externals} `{Platform}.

(** From the constructor to the registry: the origin of a behavior is the
    target of the last mapping that the origin map of the service has for
    the pattern of the behavior, and the behavior has no origin when the
    service has no origin map or no mapping for that pattern. *)
Theorem constructed_origin serverless options p fs :
  let r := (constructor serverless options).1.1 in
  let ms := default [] (offlineEdgeLambda_originMap serverless) in
  (p, fs) ∈ behaviors (extractBehaviors r) ->
  (p ∉ map om_pathPattern ms -> origin fs = None) /\
  (forall ms1 m ms2,
     ms = (ms1 ++ m :: ms2)%list -> om_pathPattern m = p ->
     p ∉ map om_pathPattern ms2 ->
     origin fs = Some {| target := om_target m |}).
Proof.
  intros r ms Hin.
  destruct (extractBehaviors_groups r) as (Hnd & _ & Hget).
  apply (elem_of_get _ _ _ Hnd), Hget in Hin as ->. simpl. fold ms. split.
  - intros Hp. unfold configureOrigins. by rewrite foldl_origins_other.
  - intros ms1 m ms2 -> <- Hp. unfold configureOrigins.
    rewrite foldl_app. simpl. rewrite foldl_origins_other by done.
    by rewrite lookup_insert_eq.
Qed.

Lemma is_header_header_line k : is_header (header_line k) = true.
Proof. destruct k; reflexivity. Qed.

Lemma no_header_in_stage_lines (fs : FunctionSet) :
  List.filter is_header
    (stage_line "viewer-request" (viewerRequest fs) ++
     stage_line "origin-request" (originRequest fs) ++
     stage_line "origin-response" (originResponse fs) ++
     stage_line "viewer-response" (viewerResponse fs) ++
     [ConsoleLog])%list = [].
Proof.
  destruct (viewerRequest fs), (originRequest fs), (originResponse fs),
    (viewerResponse fs); reflexivity.
Qed.

Lemma filter_is_header_logBehaviors (bs : JsMap.t FunctionSet) :
  List.filter is_header (logBehaviors bs) = map header_line (JsMap.keys bs).
Proof.
  unfold logBehaviors, JsMap.keys. induction bs as [|[k fs] bs IH]; [done|].
  cbn [flat_map map fst snd]. rewrite List.filter_app, IH.
  cbn [List.filter]. rewrite is_header_header_line, no_header_in_stage_lines.
  reflexivity.
Qed.

(** What start-up prints: among the lines of the log, those that announce a
    pattern are one for each pattern of the registry just built, in the
    order [match] tries the behaviors in, no pattern twice and the star among
    them. *)
Theorem listen_startup_log r d :
  let '(r', log) := listen_startup r d in
  r' = extractBehaviors r /\
  List.filter is_header log = map header_line (JsMap.keys (behaviors r')) /\
  NoDup (JsMap.keys (behaviors r')) /\
  "*" ∈ JsMap.keys (behaviors r').
Proof.
  unfold listen_startup. split; [done|].
  destruct (extractBehaviors_keyed r) as (Hnd & Hstar & _).
  split; [|done].
  rewrite List.filter_app, filter_is_header_logBehaviors. reflexivity.
Qed.

End Startup.

(** ** The further theorems at concrete requests *)

Section MoreExamples.
Import Reference.

(** The behavior of the API in the reference registry. *)
Lemma extractBehaviors_origin_witness :
  regex (api_behavior quiet (Some {| target := "http://localhost:8080" |})) = glob "/api/*" /\
  origin (api_behavior quiet (Some {| target := "http://localhost:8080" |})) =
  origins (router service) !! "/api/*".
Proof.
  apply (extractBehaviors_origin (H := quiet) (router service) "/api/*").
  apply elem_of_cons. right. apply elem_of_cons. by left.
Defined.

(** A service whose only function is not an edge function. *)
Lemma extractBehaviors_no_edge_function_witness :
  behaviors (extractBehaviors (H := quiet) (router plain_only)) =
    [("*", new_FunctionSet (H := quiet) "*" None)] /\
  match_ (H := quiet) (extractBehaviors (H := quiet) (router plain_only)) (get "/any?x=1") =
    Normal (Some (new_FunctionSet (H := quiet) "*" None)).
Proof.
  apply (extractBehaviors_no_edge_function (H := quiet) (router plain_only)
           (get "/any?x=1") "/any?x=1" "/any");
    [reflexivity | reflexivity | discriminate | reflexivity].
Defined.

(** In the reference registry the star comes first and accepts
    [/api/users]: it is the earliest accepting entry. *)
Lemma match_earliest_accepting_witness :
  (exists before k after,
     behaviors (built quiet) = (before ++ (k, star_behavior quiet) :: after)%list /\
     regex (star_behavior quiet) "/api/users" = true /\
     Forall (fun e => regex (snd e) "/api/users" = false) before) \/
  (Forall (fun e => regex (snd e) "/api/users" = false) (behaviors (built quiet)) /\
   JsMap.get "*" (behaviors (built quiet)) = Some (star_behavior quiet)).
Proof.
  apply (match_earliest_accepting (H := quiet) (built quiet) (get "/api/users")
           "/api/users" "/api/users" (star_behavior quiet));
    [reflexivity | discriminate | reflexivity | reflexivity].
Defined.

(** A lifecycle that rejects with a 502: status 502, code 500 in the body. *)
Lemma middleware_error_body_witness :
  let res := w_res (listen_middleware (H := externals failing) (built (externals failing))
                      (get "/api/users") (start (built (externals failing)))).2 in
  res_statusCode res = Js.Num 502 /\
  res_body res =
    Js.stringify (Js.JObject [("code", Js.JNumber 500);
                              ("message", Js.JString "origin unavailable")]) /\
  res_statusMessage res = "" /\
  res_headers res = [].
Proof.
  apply (middleware_error_body (H := externals failing) (built (externals failing))
           (get "/api/users") (start (built (externals failing)))
           (star_behavior (externals failing)) bad_gateway ∅);
    [discriminate | reflexivity | reflexivity | reflexivity].
Defined.

(** A request for [//]: the parser refuses it and the middleware throws. *)
Lemma middleware_invalid_url_witness :
  listen_middleware (H := quiet) (built quiet) (get "//") (start (built quiet)) =
  (Throw invalid_url,
   {| w_res := fresh_response; w_cache := ∅; w_calls := [CallMatch] |}).
Proof.
  apply (middleware_invalid_url (H := quiet) (built quiet) (get "//")
           (start (built quiet)) "//" invalid_url);
    [discriminate | reflexivity | discriminate | reflexivity].
Defined.


(** The origin map of the reference service maps the pattern of the API
    twice: its behavior has the target of the second mapping. *)
Lemma constructed_origin_witness :
  origin (api_behavior quiet (Some {| target := "http://localhost:8081" |})) =
  Some {| target := "http://localhost:8081" |}.
Proof.
  refine (proj2 (constructed_origin (H := quiet) (H0 := platform) serverless no_options
                   "/api/*" (api_behavior quiet (Some {| target := "http://localhost:8081" |}))
                   _)
            [ {| om_pathPattern := "/api/*"; om_target := "http://localhost:8080" |};
              {| om_pathPattern := "/img/*"; om_target := "http://localhost:9000" |} ]
            {| om_pathPattern := "/api/*"; om_target := "http://localhost:8081" |}
            [] eq_refl eq_refl _).
  - apply elem_of_cons. right. apply elem_of_cons. by left.
  - apply not_elem_of_nil.
Defined.

End MoreExamples.
